(** * inspect_langcodes: a shallow embedding of the language-code resolver

    The script [inspect_langcodes.py] resolves a query (a BCP 47 tag or an
    English language name) with the [langcodes] package and prints the
    standardized tag, a description, the likely script and a list of
    closely related tags.

    The [langcodes] package and [argparse] are not part of the script: they
    are taken as an environment ([Langcodes]) whose operations may raise.
    The script's own functions are embedded over that environment:
    exceptions as a [result], the closure state of [add] and the standard
    output of [main] as explicit state. *)

From Stdlib Require Import String Ascii ZArith Bool.
From stdpp Require Import base gmap strings list.

Local Open Scope Z_scope.

(** ** Python values used by the script *)

(** An exception instance; [str(exc)] is its message.  Only subclasses of
    [Exception] are modelled: every [except] clause of the script is
    [except Exception]. *)
Record exc : Type := Exception { message : string }.

(** The result of a call that may raise. *)
Inductive result (A : Type) : Type :=
| Ok (a : A)
| Raise (e : exc).
Arguments Ok {A} a.
Arguments Raise {A} e.

(** An element handed to [add]: [str | Language]. *)
Inductive value (Lang : Type) : Type :=
| VLang (l : Lang)
| VStr (s : string).
Arguments VLang {Lang} l.
Arguments VStr {Lang} s.

(** The value of [getattr(obj, name, None)] for the attributes the script
    inspects with [isinstance(value, str)]: absent, a string, or a
    sequence of strings. *)
Inductive pyattr : Type :=
| AttrNone
| AttrStr (s : string)
| AttrSeq (items : list string).

(** Truth value of a [str]: only the empty string is falsy. *)
Definition truthy (s : string) : bool :=
  match s with
  | EmptyString => false
  | String _ _ => true
  end.

(** Truth value of a [str | None]. *)
Definition truthy_opt (o : option string) : bool :=
  match o with
  | Some s => truthy s
  | None => false
  end.

(** [x or None] for an attribute that is [None] or a string. *)
Definition or_None (o : option string) : option string :=
  if truthy_opt o then o else None.

(** [x or d] for [x : str | None] and a string [d]. *)
Definition or_str (o : option string) (d : string) : string :=
  match o with
  | Some s => if truthy s then s else d
  | None => d
  end.

(** ASCII case mapping ([str.upper], [str.lower]); subtags are ASCII. *)
Definition upper_ascii (c : ascii) : ascii :=
  let n := nat_of_ascii c in
  if ((97 <=? n) && (n <=? 122))%nat then ascii_of_nat (n - 32) else c.

Definition lower_ascii (c : ascii) : ascii :=
  let n := nat_of_ascii c in
  if ((65 <=? n) && (n <=? 90))%nat then ascii_of_nat (n + 32) else c.

Fixpoint map_string (f : ascii -> ascii) (s : string) : string :=
  match s with
  | EmptyString => EmptyString
  | String c r => String (f c) (map_string f r)
  end.

Definition upper (s : string) : string := map_string upper_ascii s.
Definition lower (s : string) : string := map_string lower_ascii s.

(** A [str] is held as its UTF-8 bytes.  The characters for which
    [str.isspace] holds are U+0009-000D, U+001C-0020, U+0085, U+00A0,
    U+1680, U+2000-200A, U+2028, U+2029, U+202F, U+205F and U+3000: one,
    two or three bytes each.  None of them starts with a continuation
    byte, so a white-space character is found by its bytes alone. *)

(** [str.isspace] on a character of one byte. *)
Definition is_space (c : ascii) : bool :=
  let n := nat_of_ascii c in
  ((9 <=? n) && (n <=? 13) || (28 <=? n) && (n <=? 32))%nat.

(** [str.isspace] on a character of two bytes: U+0085 and U+00A0. *)
Definition is_space2 (c1 c2 : ascii) : bool :=
  let n2 := nat_of_ascii c2 in
  ((nat_of_ascii c1 =? 194) && ((n2 =? 133) || (n2 =? 160)))%nat.

(** [str.isspace] on a character of three bytes. *)
Definition is_space3 (c1 c2 c3 : ascii) : bool :=
  let n1 := nat_of_ascii c1 in
  let n2 := nat_of_ascii c2 in
  let n3 := nat_of_ascii c3 in
  ((n1 =? 225) && (n2 =? 154) && (n3 =? 128)
   || (n1 =? 226) && (n2 =? 128)
      && ((128 <=? n3) && (n3 <=? 138) || (n3 =? 168) || (n3 =? 169) || (n3 =? 175))
   || (n1 =? 226) && (n2 =? 129) && (n3 =? 159)
   || (n1 =? 227) && (n2 =? 128) && (n3 =? 128))%nat.

(** [s.lstrip()]. *)
Fixpoint lstrip (s : string) : string :=
  match s with
  | EmptyString => EmptyString
  | String c1 r1 =>
      if is_space c1 then lstrip r1
      else
        match r1 with
        | EmptyString => s
        | String c2 r2 =>
            if is_space2 c1 c2 then lstrip r2
            else
              match r2 with
              | EmptyString => s
              | String c3 r3 => if is_space3 c1 c2 c3 then lstrip r3 else s
              end
        end
  end.

(** Every character of the string is white space (the empty string too). *)
Fixpoint all_space (s : string) : bool :=
  match s with
  | EmptyString => true
  | String c1 r1 =>
      if is_space c1 then all_space r1
      else
        match r1 with
        | EmptyString => false
        | String c2 r2 =>
            if is_space2 c1 c2 then all_space r2
            else
              match r2 with
              | EmptyString => false
              | String c3 r3 => is_space3 c1 c2 c3 && all_space r3
              end
        end
  end.

(** [s.rstrip()]: what is left once the longest white-space suffix is
    cut. *)
Fixpoint rstrip (s : string) : string :=
  match s with
  | EmptyString => EmptyString
  | String c r => if all_space s then EmptyString else String c (rstrip r)
  end.

(** [s.strip()]. *)
Definition strip (s : string) : string := lstrip (rstrip s).

(** U+00A0, the no-break space. *)
Definition no_break_space : string :=
  String (ascii_of_nat 194) (String (ascii_of_nat 160) EmptyString).

(** U+3000, the ideographic space. *)
Definition ideographic_space : string :=
  String (ascii_of_nat 227)
    (String (ascii_of_nat 128) (String (ascii_of_nat 128) EmptyString)).

(** [sep.join(parts)]. *)
Definition join (sep : string) (parts : list string) : string :=
  String.concat sep parts.

(** A [dict] with string keys and values, in insertion order. *)
Definition dict : Type := list (string * string).

(** [d.get(key)]. *)
Fixpoint dict_get (d : dict) (key : string) : option string :=
  match d with
  | [] => None
  | (k, v) :: rest => if String.eqb k key then Some v else dict_get rest key
  end.

(** [[k for k, v in d.items() if v == target]]. *)
Definition keys_with_value (d : dict) (target : string) : list string :=
  List.map fst (List.filter (fun kv => String.eqb (snd kv) target) d).

(** ** Exceptions and state *)

Module Res.
Definition bind {A B : Type} (m : result A) (k : A -> result B) : result B :=
  match m with
  | Ok a => k a
  | Raise e => Raise e
  end.

(** [try: m  except Exception: h]. *)
Definition try_except {A : Type} (m : result A) (h : exc -> result A) : result A :=
  match m with
  | Ok a => Ok a
  | Raise e => h e
  end.
End Res.

(** A computation over a mutable state [S] that may raise; the state
    written before an exception stays written. *)
Definition M (S A : Type) : Type := S -> S * result A.

Module St.
Section Ops.
Context {S : Type}.

Definition ret {A : Type} (a : A) : M S A := fun s => (s, Ok a).

Definition bind {A B : Type} (m : M S A) (k : A -> M S B) : M S B :=
  fun s =>
    match m s with
    | (s', Ok a) => k a s'
    | (s', Raise e) => (s', Raise e)
    end.

Definition lift {A : Type} (r : result A) : M S A := fun s => (s, r).

Definition gets {A : Type} (f : S -> A) : M S A := fun s => (s, Ok (f s)).

Definition modify (f : S -> S) : M S unit := fun s => (f s, Ok tt).

(** [for x in xs: body(x)]. *)
Fixpoint for_each {A : Type} (xs : list A) (body : A -> M S unit) : M S unit :=
  match xs with
  | [] => ret tt
  | x :: rest => bind (body x) (fun _ => for_each rest body)
  end.
End Ops.
End St.

Declare Scope res_scope.
Delimit Scope res_scope with res.
Notation "x <- m ;; k" := (Res.bind m (fun x => k))
  (at level 20, m at level 99, k at level 200, only parsing) : res_scope.

Declare Scope st_scope.
Delimit Scope st_scope with st.
Notation "x <- m ;; k" := (St.bind m (fun x => k))
  (at level 20, m at level 99, k at level 200, only parsing) : st_scope.
Notation "m ;; k" := (St.bind m (fun _ => k))
  (at level 100, k at level 200, only parsing, right associativity) : st_scope.

(** ** The environment: [langcodes] and [argparse] *)

(** What [parser.parse_args(argv)] does: a namespace, or [SystemExit]
    after printing help (status 0) or a usage error (status 2). *)
Inductive parse_outcome : Type :=
| Namespace (query : list string) (simple : bool)
| ParserExit (status : Z) (out err : list string).

(** The operations are functions: a call gives the same answer each time.
    A [Language] object is an instance of an ordinary class and counts as
    true in [if minimized:] and [candidate_lang and ...]; its attributes
    and [to_tag()] are plain accessors, which the script itself calls
    outside of any [try].  Every other call may raise.  [describe] and
    [display_name] stand for the text that [print] shows for their
    results.  The tables of [data_dicts] are dictionaries from strings to
    strings. *)
Record Langcodes : Type := {
  (** [langcodes.Language] and the attributes the script reads. *)
  Language : Type;
  language : Language -> option string;
  script : Language -> option string;
  territory : Language -> option string;
  variants : Language -> pyattr;
  variant : Language -> pyattr;
  to_tag : Language -> string;
  minimize : Language -> result Language;
  maximize : Language -> result Language;
  describe : Language -> result string;
  display_name : Language -> result string;
  Language_get : string -> result Language;
  (** module-level functions *)
  find : string -> result Language;
  standardize_tag : value Language -> result string;
  tag_distance : string -> string -> result Z;
  tag_is_valid : string -> result bool;
  (** [langcodes.data_dicts] *)
  LANGUAGE_ALPHA3 : dict;
  LANGUAGE_ALPHA3_BIBLIOGRAPHIC : dict;
  LANGUAGE_REPLACEMENTS : dict;
  MACROLANGUAGES : dict;
  NORMALIZED_MACROLANGUAGES : dict;
  (** the [argparse] parser built by [main] *)
  parse_args : list string -> parse_outcome;
  parser_usage : list string;
  parser_prog : string
}.

(** ** The script *)

Definition MAX_NEAR_DISTANCE : Z := 1.

Definition US_TERRITORY_LANG_ALLOWLIST : gset string := {[ "en"; "es" ]}.

(** The state of the closure [add]: the list [tags] and the set [seen]. *)
Record collector : Type := { tags : list string; seen : gset string }.

Definition collector_empty : collector := {| tags := []; seen := ∅ |}.

Section Script.
Variable L : Langcodes.

Definition raw_of (val : value (Language L)) : string :=
  match val with
  | VLang l => to_tag L l
  | VStr s => s
  end.

(** [_to_standard_tag]: the conversion with [to_tag] is outside the
    [try], the call of [standardize_tag] inside. *)
Definition _to_standard_tag (val : value (Language L)) : result (option string) :=
  let val := VStr (raw_of val) in
  Res.try_except
    (s <- standardize_tag L val ;; Ok (Some s))%res
    (fun _ => Ok None).

Definition _is_near_identical (base_tag candidate : string) : result bool :=
  (r <- Res.try_except
          (forward <- tag_distance L base_tag candidate ;;
           backward <- tag_distance L candidate base_tag ;;
           Ok (Some (forward, backward)))
          (fun _ => Ok None) ;;
   match r with
   | None => Ok false
   | Some (forward, backward) =>
       Ok ((forward <=? MAX_NEAR_DISTANCE) && (backward <=? MAX_NEAR_DISTANCE))
   end)%res.

(** The body of the inner loop of [add]. *)
Definition add_candidate (candidate : option string) : M collector unit :=
  fun st =>
    match candidate with
    | Some c =>
        if truthy c && negb (bool_decide (c ∈ seen st))
        then ({| tags := tags st ++ [c]; seen := {[ c ]} ∪ seen st |}, Ok tt)
        else (st, Ok tt)
    | None => (st, Ok tt)
    end.

Definition add (values : list (value (Language L))) : M collector unit :=
  St.for_each values (fun val =>
    let raw := raw_of val in
    (tag <- St.lift (_to_standard_tag val) ;;
     St.for_each [tag; Some raw] add_candidate)%st).

(** [try: x = call() except Exception: x = None]. *)
Definition try_or_None {A : Type} (call : result A) : result (option A) :=
  Res.try_except (a <- call ;; Ok (Some a))%res (fun _ => Ok None).

(** [if x: add([x])] for [x : str | None]. *)
Definition add_if (x : option string) : M collector unit :=
  match or_None x with
  | Some s => add [VStr s]
  | None => St.ret tt
  end.

(** The list [variants] built from the attributes [variants] and
    [variant] of the maximized language. *)
Definition attr_variants (a : pyattr) : list string :=
  match a with
  | AttrNone => []
  | AttrStr s => if truthy s then [s] else []
  | AttrSeq items => List.filter truthy items
  end.

Definition variants_of (maximized : Language L) : list string :=
  attr_variants (variants L maximized) ++ attr_variants (variant L maximized).

(** [[x] if c else []] for an optional subtag. *)
Definition when_some (o : option string) (f : string -> string) : list string :=
  match o with
  | Some s => [f s]
  | None => []
  end.

Definition both (a b : option string) : option (string * string) :=
  match a, b with
  | Some x, Some y => Some (x, y)
  | _, _ => None
  end.

(** The list [components] built from the maximized language. *)
Definition components_of (maximized : Language L) : list string :=
  let script := or_None (script L maximized) in
  let territory := or_None (territory L maximized) in
  match or_None (language L maximized) with
  | None => []
  | Some base =>
      [base]
      ++ when_some script (fun s => base +:+ "-" +:+ s)
      ++ when_some territory (fun t => base +:+ "-" +:+ t)
      ++ match both script territory with
         | Some (s, t) => [base +:+ "-" +:+ s +:+ "-" +:+ t]
         | None => []
         end
      ++ List.flat_map
           (fun variant =>
              [base +:+ "-" +:+ variant]
              ++ when_some script (fun s => base +:+ "-" +:+ s +:+ "-" +:+ variant)
              ++ when_some territory (fun t => base +:+ "-" +:+ t +:+ "-" +:+ variant)
              ++ match both script territory with
                 | Some (s, t) =>
                     [base +:+ "-" +:+ s +:+ "-" +:+ t +:+ "-" +:+ variant]
                 | None => []
                 end)
           (variants_of maximized)
  end.

(** Lines 70-75: the minimized form, when there is one. *)
Definition add_minimized (lang : Language L) : M collector unit :=
  (minimized <- St.lift (try_or_None (minimize L lang)) ;;
   match minimized with
   | Some m => add [VLang m]
   | None => St.ret tt
   end)%st.

(** Lines 77-118: the maximized form and its components. *)
Definition add_maximized (lang : Language L) (maximized : option (Language L))
  : M collector unit :=
  (maximized <- match maximized with
                | None => St.lift (try_or_None (maximize L lang))
                | Some m => St.ret (Some m)
                end ;;
   match maximized with
   | Some m => add [VLang m] ;; add (List.map VStr (components_of m))
   | None => St.ret tt
   end)%st.

(** Lines 154-161: one alpha-3 table. *)
Definition add_alpha3 (base_language : string) (table : dict) : M collector unit :=
  (code <- St.lift (Res.try_except (Ok (dict_get table base_language))
                                   (fun _ => Ok None)) ;;
   add_if code)%st.

(** Lines 122-161: the candidates drawn from the tables. *)
Definition add_from_tables (base_language : string) : M collector unit :=
  (add (List.map VStr (keys_with_value (MACROLANGUAGES L) base_language)) ;;
   add_if (dict_get (MACROLANGUAGES L) base_language) ;;
   add (List.map VStr (keys_with_value (NORMALIZED_MACROLANGUAGES L) base_language)) ;;
   add_if (dict_get (NORMALIZED_MACROLANGUAGES L) base_language) ;;
   add (List.map VStr (keys_with_value (LANGUAGE_REPLACEMENTS L) base_language)) ;;
   add (List.map VStr (keys_with_value (LANGUAGE_REPLACEMENTS L) base_language)) ;;
   St.for_each [LANGUAGE_ALPHA3 L; LANGUAGE_ALPHA3_BIBLIOGRAPHIC L]
     (add_alpha3 base_language))%st.

(** Lines 68-161: everything that fills [tags]. *)
Definition collect_tags (lang : Language L) (maximized : option (Language L))
  : M collector unit :=
  (add [VLang lang] ;;
   add_minimized lang ;;
   add_maximized lang maximized ;;
   match or_None (language L lang) with
   | Some base_language => add_from_tables base_language
   | None => St.ret tt
   end)%st.

(** [base_tag or primary or lang.to_tag()]. *)
Definition reference_of (base_tag primary : option string) (lang : Language L)
  : string :=
  match or_None base_tag with
  | Some b => b
  | None =>
      match or_None primary with
      | Some p => p
      | None => to_tag L lang
      end
  end.

(** The condition of lines 178-182 on [candidate_lang]. *)
Definition us_excluded (candidate_lang : option (Language L)) : bool :=
  match candidate_lang with
  | Some cl =>
      String.eqb (upper (or_str (territory L cl) "")) "US"
      && negb (bool_decide
                 (lower (or_str (language L cl) "") ∈ US_TERRITORY_LANG_ALLOWLIST))
  | None => false
  end.

(** The loop of lines 170-185 over the remaining [tags], with the list
    [filtered] built so far. *)
Fixpoint filter_related (reference : string) (primary : option string)
    (candidates filtered : list string) : result (list string) :=
  match candidates with
  | [] => Ok filtered
  | candidate :: rest =>
      if negb (truthy candidate) || bool_decide (primary = Some candidate)
      then filter_related reference primary rest filtered
      else
        (candidate_lang <- try_or_None (Language_get L candidate) ;;
         if us_excluded candidate_lang
         then filter_related reference primary rest filtered
         else
           near <- _is_near_identical reference candidate ;;
           if (near : bool)
           then filter_related reference primary rest (filtered ++ [candidate])
           else filter_related reference primary rest filtered)%res
  end.

(** Lines 163-186, run on the [tags] collected before. *)
Definition select_related (lang : Language L) (base_tag : option string)
    (tags : list string) : result (list string) :=
  (primary <- _to_standard_tag (VLang lang) ;;
   let reference := reference_of base_tag primary lang in
   if negb (truthy reference)
   then Ok (List.filter
              (fun tag => truthy tag && negb (bool_decide (primary = Some tag)))
              tags)
   else filter_related reference primary tags [])%res.

Definition _collect_related_codes (lang : Language L)
    (maximized : option (Language L)) (base_tag : option string)
  : result (list string) :=
  snd ((collect_tags lang maximized ;;
        tags <- St.gets tags ;;
        St.lift (select_related lang base_tag tags))%st collector_empty).

(** *** The command-line entry point *)

(** [print(line)] to standard output.  The state holds the lines the
    script's own [print] calls write, in order; writing is taken not to
    fail, and what a library call may itself write to the standard
    streams is not recorded. *)
Definition print (line : string) : M (list string) unit :=
  St.modify (fun out => out ++ [line]).

(** Lines 216-239: the full report for a resolved language. *)
Definition report (query : string) (lang : Language L) : M (list string) Z :=
  (tag <- St.lift (_to_standard_tag (VLang lang)) ;;
   let tag := or_str tag query in
   description <- St.lift (describe L lang) ;;
   print ("Tag: " +:+ tag) ;;
   print ("Name: " +:+ description) ;;
   maximized <- St.lift (try_or_None (maximize L lang)) ;;
   let likely_script :=
     or_str (match maximized with Some m => script L m | None => None end)
            "Unknown" in
   print ("Likely script: " +:+ likely_script) ;;
   related <- St.lift (_collect_related_codes lang maximized (Some tag)) ;;
   match related with
   | [] => St.ret tt
   | _ :: _ =>
       print "Identical or near-identical codes:" ;;
       St.for_each related (fun code =>
         display_name <- St.lift
           (Res.try_except
              (l <- Language_get L code ;; display_name L l)%res
              (fun _ => Ok "Unknown")) ;;
         print ("  - " +:+ code +:+ ": " +:+ display_name))
   end ;;
   St.ret 0)%st.

(** Lines 205-239: the body of the [try] of [main]. *)
Definition main_try (query : string) (simple : bool) : M (list string) Z :=
  (valid <- St.lift (tag_is_valid L query) ;;
   if (valid : bool)
   then
     lang <- St.lift (Language_get L query) ;;
     if simple
     then name <- St.lift (display_name L lang) ;; print name ;; St.ret 0
     else report query lang
   else
     lang <- St.lift (find L query) ;;
     if simple
     then
       tag <- St.lift (standardize_tag L (VLang lang)) ;;
       description <- St.lift (describe L lang) ;;
       print (tag +:+ ": " +:+ description) ;; St.ret 0
     else report query lang)%st.

(** How a call of [main] ends: it returns a status, or [SystemExit]
    leaves it (raised by [argparse]). *)
Inductive ending : Type :=
| Returned (status : Z)
| SystemExit (status : Z).

Record run : Type := { stdout : list string; stderr : list string; outcome : ending }.

(** [parser.error(message)]: usage and message on standard error, then
    [SystemExit(2)]. *)
Definition parser_error (msg : string) : run :=
  {| stdout := [];
     stderr := parser_usage L ++ [parser_prog L +:+ ": error: " +:+ msg];
     outcome := SystemExit 2 |}.

Definition main (argv : list string) : run :=
  match parse_args L argv with
  | ParserExit status out err =>
      {| stdout := out; stderr := err; outcome := SystemExit status |}
  | Namespace words simple =>
      let query := strip (join " " words) in
      if negb (truthy query)
      then parser_error "Expected a non-empty query"
      else
        match main_try query simple [] with
        | (out, Ok status) =>
            {| stdout := out; stderr := []; outcome := Returned status |}
        | (out, Raise e) =>
            {| stdout := out;
               stderr := ["langcodes: " +:+ message e];
               outcome := Returned 1 |}
        end
  end.

End Script.


(** ** What the library calls amount to once their exceptions are caught *)

(** The value of a call, [None] when it raises. *)
Definition attempt {A : Type} (call : result A) : option A :=
  match call with
  | Ok a => Some a
  | Raise _ => None
  end.

(** Keep-first removal of duplicates: the order of first occurrence. *)
Fixpoint dedup_first (l : list string) : list string :=
  match l with
  | [] => []
  | x :: rest => x :: List.filter (fun y => negb (String.eqb y x)) (dedup_first rest)
  end.

Section Views.
Variable L : Langcodes.

(** The standardized tag of a value, when [standardize_tag] gives one. *)
Definition standard_tag (val : value (Language L)) : option string :=
  attempt (standardize_tag L (VStr (raw_of L val))).

(** Both distances are available and at most [MAX_NEAR_DISTANCE]. *)
Definition near (base_tag candidate : string) : bool :=
  match tag_distance L base_tag candidate, tag_distance L candidate base_tag with
  | Ok forward, Ok backward =>
      (forward <=? MAX_NEAR_DISTANCE) && (backward <=? MAX_NEAR_DISTANCE)
  | _, _ => false
  end.

(** The candidate strings one element offers to [tags], in order. *)
Definition offered_by (val : value (Language L)) : list (option string) :=
  [standard_tag val; Some (raw_of L val)].

Definition of_language (o : option (Language L)) : list (value (Language L)) :=
  match o with
  | Some m => [VLang m]
  | None => []
  end.

Definition of_string (o : option string) : list (value (Language L)) :=
  match or_None o with
  | Some s => [VStr s]
  | None => []
  end.

(** The maximized language the collector works with. *)
Definition maximized_of (lang : Language L) (maximized : option (Language L))
  : option (Language L) :=
  match maximized with
  | None => attempt (maximize L lang)
  | Some m => Some m
  end.

Definition table_sources (base_language : string) : list (value (Language L)) :=
  List.map VStr (keys_with_value (MACROLANGUAGES L) base_language)
  ++ of_string (dict_get (MACROLANGUAGES L) base_language)
  ++ List.map VStr (keys_with_value (NORMALIZED_MACROLANGUAGES L) base_language)
  ++ of_string (dict_get (NORMALIZED_MACROLANGUAGES L) base_language)
  ++ List.map VStr (keys_with_value (LANGUAGE_REPLACEMENTS L) base_language)
  ++ List.map VStr (keys_with_value (LANGUAGE_REPLACEMENTS L) base_language)
  ++ of_string (dict_get (LANGUAGE_ALPHA3 L) base_language)
  ++ of_string (dict_get (LANGUAGE_ALPHA3_BIBLIOGRAPHIC L) base_language).

(** Every element handed to [add] by [_collect_related_codes], in the
    order of the calls. *)
Definition sources (lang : Language L) (maximized : option (Language L))
  : list (value (Language L)) :=
  [VLang lang]
  ++ of_language (attempt (minimize L lang))
  ++ match maximized_of lang maximized with
     | Some m => [VLang m] ++ List.map VStr (components_of L m)
     | None => []
     end
  ++ match or_None (language L lang) with
     | Some base_language => table_sources base_language
     | None => []
     end.

(** The non-empty candidate strings in the order they are discovered. *)
Definition discovered (lang : Language L) (maximized : option (Language L))
  : list string :=
  List.filter truthy
    (omap id (List.flat_map offered_by (sources lang maximized))).

(** The test a candidate passes in the loop of lines 170-185. *)
Definition keeps (reference : string) (primary : option string)
    (candidate : string) : bool :=
  truthy candidate
  && negb (bool_decide (primary = Some candidate))
  && negb (us_excluded L (attempt (Language_get L candidate)))
  && near reference candidate.

(** One pass of the inner loop of [add] on a string, as a state change. *)
Definition push (st : collector) (c : string) : collector :=
  if truthy c && negb (bool_decide (c ∈ seen st))
  then {| tags := tags st ++ [c]; seen := {[ c ]} ∪ seen st |}
  else st.

Definition offer (st : collector) (cs : list (option string)) : collector :=
  fold_left (fun st c => match c with Some c => push st c | None => st end) cs st.

(** The test a collected tag passes in lines 163-186. *)
Definition selects (lang : Language L) (base_tag : option string)
    (candidate : string) : bool :=
  let primary := standard_tag (VLang lang) in
  let reference := reference_of L base_tag primary lang in
  if truthy reference
  then keeps reference primary candidate
  else truthy candidate && negb (bool_decide (primary = Some candidate)).

(** The tags [_collect_related_codes] returns. *)
Definition related_of (lang : Language L) (maximized : option (Language L))
    (base_tag : option string) : list string :=
  List.filter (selects lang base_tag) (dedup_first (discovered lang maximized)).

(** The name printed beside a related code. *)
Definition display_of (code : string) : string :=
  match (l <- Language_get L code ;; display_name L l)%res with
  | Ok name => name
  | Raise _ => "Unknown"
  end.

(** The lines of the full report, given the description. *)
Definition report_lines (query : string) (lang : Language L)
    (description : string) : list string :=
  let tag := or_str (standard_tag (VLang lang)) query in
  let maximized := attempt (maximize L lang) in
  ["Tag: " +:+ tag;
   "Name: " +:+ description;
   "Likely script: "
     +:+ or_str (match maximized with Some m => script L m | None => None end)
                "Unknown"]
  ++ match related_of lang maximized (Some tag) with
     | [] => []
     | related =>
         "Identical or near-identical codes:"
         :: List.map (fun code => "  - " +:+ code +:+ ": " +:+ display_of code)
              related
     end.

(** A string of [seen] is not appended again. *)
Definition unseen (st : collector) (y : string) : bool :=
  negb (bool_decide (y ∈ seen st)).

End Views.

(** ** A small environment to run the script on

    A miniature of [langcodes]: five languages, one script, three
    territories.  [und] is the tag of the language without subtags
    (["und"] in [langcodes]); [rejects] marks the tags the parser of
    [Language.get] refuses although the distance table knows them. *)

Module Toy.

Record lang : Type := { l_language : string; l_script : string; l_territory : string }.

Definition subtag (s : string) : option string :=
  if truthy s then Some s else None.

Definition known : list lang :=
  {| l_language := ""; l_script := ""; l_territory := "" |}
  :: List.flat_map
       (fun l => List.flat_map
          (fun s => List.map
             (fun t => {| l_language := l; l_script := s; l_territory := t |})
             [""; "US"; "DE"; "FR"])
          [""; "Latn"])
       ["en"; "es"; "de"; "fr"; "haw"].

Definition names : dict :=
  [("en", "English"); ("es", "Spanish"); ("de", "German");
   ("fr", "French"); ("haw", "Hawaiian")].

Definition likely_territory : dict :=
  [("en", "US"); ("es", "ES"); ("de", "DE"); ("fr", "FR"); ("haw", "US")].

Fixpoint scan (argv words : list string) (simple : bool) : list string * bool :=
  match argv with
  | [] => (words, simple)
  | a :: rest =>
      if String.eqb a "-s" || String.eqb a "--simple"
      then scan rest words true
      else scan rest (words ++ [a]) simple
  end.

Section Env.
Variable und : string.
Variable rejects : string -> bool.

Definition tag_text (l : lang) : string :=
  join "-" (List.filter truthy
              [if truthy (l_language l) then l_language l else und;
               l_script l; l_territory l]).

Definition lookup (tag : string) : result lang :=
  match List.find (fun l => String.eqb (tag_text l) tag) known with
  | Some l => Ok l
  | None => Raise (Exception ("Expected a language code, got '" +:+ tag +:+ "'"))
  end.

Definition get (tag : string) : result lang :=
  if rejects tag
  then Raise (Exception ("This tag is not well-formed: '" +:+ tag +:+ "'"))
  else lookup tag.

Definition standardize (val : value lang) : result string :=
  (l <- lookup match val with VLang l => tag_text l | VStr s => s end ;;
   Ok (tag_text {| l_language := l_language l; l_script := "";
                 l_territory := l_territory l |}))%res.

Definition distance (desired supported : string) : result Z :=
  (d <- lookup desired ;;
   s <- lookup supported ;;
   Ok (if negb (String.eqb (l_language d) (l_language s)) then 100
       else if truthy (l_territory d) && truthy (l_territory s)
               && negb (String.eqb (l_territory d) (l_territory s))
            then 5 else 0))%res.

Definition likely (l : lang) : result lang :=
  match dict_get likely_territory (l_language l) with
  | Some t =>
      Ok {| l_language := l_language l;
            l_script := if truthy (l_script l) then l_script l else "Latn";
            l_territory := if truthy (l_territory l) then l_territory l else t |}
  | None => Raise (Exception "no likely subtags")
  end.

Definition minimal (l : lang) : result lang :=
  if truthy (l_language l)
  then Ok {| l_language := l_language l; l_script := ""; l_territory := "" |}
  else Raise (Exception "nothing to minimize").

Definition display (l : lang) : result string :=
  match dict_get names (l_language l) with
  | Some n => Ok n
  | None => Raise (Exception "no name data")
  end.

Definition find_name (name : string) : result lang :=
  match keys_with_value names name with
  | code :: _ => Ok {| l_language := code; l_script := ""; l_territory := "" |}
  | [] => Raise (Exception ("Can't find any language named '" +:+ name +:+ "'"))
  end.

Definition parse (argv : list string) : parse_outcome :=
  match scan argv [] false with
  | ([], _) =>
      ParserExit 2 []
        ["usage: inspect [-h] [-s] query [query ...]";
         "inspect: error: the following arguments are required: query"]
  | (words, simple) => Namespace words simple
  end.

Definition lib : Langcodes :=
  {| Language := lang;
     language := fun l => subtag (l_language l);
     script := fun l => subtag (l_script l);
     territory := fun l => subtag (l_territory l);
     variants := fun _ => AttrNone;
     variant := fun _ => AttrNone;
     to_tag := tag_text;
     minimize := minimal;
     maximize := likely;
     describe := display;
     display_name := display;
     Language_get := get;
     find := find_name;
     standardize_tag := standardize;
     tag_distance := distance;
     tag_is_valid := fun tag => Ok (bool_decide (attempt (get tag) <> None));
     LANGUAGE_ALPHA3 :=
       [("en", "eng"); ("es", "spa"); ("de", "deu"); ("fr", "fra"); ("haw", "haw")];
     LANGUAGE_ALPHA3_BIBLIOGRAPHIC := [("de", "ger"); ("fr", "fre")];
     LANGUAGE_REPLACEMENTS := [("iw", "he"); ("in", "id")];
     MACROLANGUAGES := [("cmn", "zh"); ("yue", "zh")];
     NORMALIZED_MACROLANGUAGES := [("cmn", "zh")];
     parse_args := parse;
     parser_usage := ["usage: inspect [-h] [-s] query [query ...]"];
     parser_prog := "inspect" |}.
End Env.

(** The environment as [langcodes] behaves. *)
Definition standard : Langcodes := lib "und" (fun _ => false).

(** An environment whose empty language has the empty tag, which
    [langcodes] never gives: it serves to reach the guard of lines
    166-167. *)
Definition blank : Langcodes := lib "" (fun _ => false).

(** An environment whose parser refuses tags of more than six
    characters (here: those with a script subtag) while its distance
    table knows them, which [langcodes] never does: it serves to reach
    line 184 with [candidate_lang = None]. *)
Definition strict : Langcodes :=
  lib "und" (fun tag => (6 <? String.length tag)%nat).

Definition en : lang := {| l_language := "en"; l_script := ""; l_territory := "" |}.
Definition haw : lang := {| l_language := "haw"; l_script := ""; l_territory := "" |}.
Definition haw_Latn_US : lang :=
  {| l_language := "haw"; l_script := "Latn"; l_territory := "US" |}.
Definition empty : lang := {| l_language := ""; l_script := ""; l_territory := "" |}.

End Toy.

(** ** Further notions used to describe the script *)

(** The collector is in order: [seen] holds exactly the strings of
    [tags], no string stands twice in [tags], and none is empty. *)
Definition collector_ok (st : collector) : Prop :=
  (forall x, x ∈ seen st <-> In x (tags st))
  /\ NoDup (tags st)
  /\ (forall x, In x (tags st) -> truthy x = true).

(** Two facts about the [langcodes] package, which is not part of the
    script.  [Language.to_tag()] is never the empty string: it has the
    language subtag, or "und" in its place.  [tag_distance] parses both
    of its tags with [Language.get], and so raises when [Language.get]
    raises on one of them. *)
Definition tags_never_empty (L : Langcodes) : Prop :=
  forall l : Language L, truthy (to_tag L l) = true.

Definition distance_parses (L : Langcodes) : Prop :=
  forall desired supported e,
    Language_get L desired = Raise e \/ Language_get L supported = Raise e ->
    exists e', tag_distance L desired supported = Raise e'.

Section Resolution.
Variable L : Langcodes.

(** Lines 205-211: how [main] turns the query into a language. *)
Definition resolve (query : string) : result (Language L) :=
  (valid <- tag_is_valid L query ;;
   if (valid : bool) then Language_get L query else find L query)%res.

End Resolution.

(** ** Properties of the helpers *)

Section Facts.
Variable L : Langcodes.

Lemma _to_standard_tag_eq (val : value (Language L)) :
  _to_standard_tag L val = Ok (standard_tag L val).
Proof.
  unfold _to_standard_tag, standard_tag; simpl.
  destruct (standardize_tag L _); reflexivity.
Qed.

Lemma _is_near_identical_eq (base_tag candidate : string) :
  _is_near_identical L base_tag candidate = Ok (near L base_tag candidate).
Proof.
  unfold _is_near_identical, near; simpl.
  destruct (tag_distance L base_tag candidate); simpl; [|reflexivity].
  destruct (tag_distance L candidate base_tag); reflexivity.
Qed.

Lemma try_or_None_eq {A : Type} (call : result A) :
  try_or_None call = Ok (attempt call).
Proof. destruct call; reflexivity. Qed.

Lemma bind_run {S A B : Type} (m : M S A) (k : A -> M S B) s s' a :
  m s = (s', Ok a) -> St.bind m k s = k a s'.
Proof. intros E. unfold St.bind. rewrite E. reflexivity. Qed.

Lemma add_candidate_eq (c : option string) (st : collector) :
  add_candidate c st = (offer st [c], Ok tt).
Proof.
  destruct c as [c|]; simpl; [|reflexivity].
  unfold push. destruct (truthy c && _); reflexivity.
Qed.

Lemma offer_app (st : collector) (xs ys : list (option string)) :
  offer st (xs ++ ys) = offer (offer st xs) ys.
Proof. apply fold_left_app. Qed.

Lemma add_eq (values : list (value (Language L))) (st : collector) :
  add L values st = (offer st (List.flat_map (offered_by L) values), Ok tt).
Proof.
  revert st. induction values as [|val values IH]; intros st; [reflexivity|].
  unfold add in *. cbn [St.for_each List.flat_map].
  rewrite offer_app.
  erewrite bind_run; [apply IH|].
  erewrite bind_run; [|unfold St.lift; rewrite _to_standard_tag_eq; reflexivity].
  erewrite bind_run; [|apply add_candidate_eq].
  erewrite bind_run; [|apply add_candidate_eq].
  reflexivity.
Qed.

Lemma add_if_eq (x : option string) (st : collector) :
  add_if L x st = (offer st (List.flat_map (offered_by L) (of_string L x)), Ok tt).
Proof.
  unfold add_if, of_string. destruct (or_None x); [apply add_eq|reflexivity].
Qed.

Ltac step_with lem := erewrite bind_run; [|rewrite lem; reflexivity].

Lemma add_alpha3_eq (base_language : string) (table : dict) (st : collector) :
  add_alpha3 L base_language table st
  = (offer st (List.flat_map (offered_by L)
                 (of_string L (dict_get table base_language))), Ok tt).
Proof. unfold add_alpha3. erewrite bind_run; [apply add_if_eq|reflexivity]. Qed.

Lemma add_from_tables_eq (base_language : string) (st : collector) :
  add_from_tables L base_language st
  = (offer st (List.flat_map (offered_by L) (table_sources L base_language)), Ok tt).
Proof.
  unfold add_from_tables, table_sources.
  rewrite !flat_map_app, !offer_app.
  step_with add_eq. step_with add_if_eq. step_with add_eq. step_with add_if_eq.
  step_with add_eq. step_with add_eq.
  cbn [St.for_each].
  step_with add_alpha3_eq. step_with add_alpha3_eq. reflexivity.
Qed.

Lemma add_minimized_eq (lang : Language L) (st : collector) :
  add_minimized L lang st
  = (offer st (List.flat_map (offered_by L)
                 (of_language L (attempt (minimize L lang)))), Ok tt).
Proof.
  unfold add_minimized.
  erewrite bind_run; [|unfold St.lift; rewrite try_or_None_eq; reflexivity].
  destruct (attempt (minimize L lang)); [apply add_eq|reflexivity].
Qed.

Lemma add_maximized_eq (lang : Language L) (maximized : option (Language L))
    (st : collector) :
  add_maximized L lang maximized st
  = (offer st (List.flat_map (offered_by L)
                 match maximized_of L lang maximized with
                 | Some m => [VLang m] ++ List.map VStr (components_of L m)
                 | None => []
                 end), Ok tt).
Proof.
  unfold add_maximized.
  erewrite bind_run with (a := maximized_of L lang maximized);
    [|destruct maximized; [reflexivity|];
      unfold St.lift; rewrite try_or_None_eq; reflexivity].
  destruct (maximized_of L lang maximized); [|reflexivity].
  rewrite flat_map_app, offer_app. step_with add_eq. apply add_eq.
Qed.

Lemma add_tables_eq (o : option string) (st : collector) :
  match o with Some b => add_from_tables L b | None => St.ret tt end st
  = (offer st (List.flat_map (offered_by L)
                 match o with Some b => table_sources L b | None => [] end), Ok tt).
Proof. destruct o; [apply add_from_tables_eq|reflexivity]. Qed.

Lemma collect_tags_eq (lang : Language L) (maximized : option (Language L))
    (st : collector) :
  collect_tags L lang maximized st
  = (offer st (List.flat_map (offered_by L) (sources L lang maximized)), Ok tt).
Proof.
  unfold collect_tags, sources.
  rewrite !flat_map_app, !offer_app.
  step_with add_eq. step_with add_minimized_eq. step_with add_maximized_eq.
  apply add_tables_eq.
Qed.

(** *** [tags] is the keep-first deduplication of what was offered *)

Lemma filter_filter_implied {A : Type} (p q : A -> bool) (l : list A) :
  (forall x, p x = true -> q x = true) ->
  List.filter p (List.filter q l) = List.filter p l.
Proof.
  intros Hpq. induction l as [|x l IH]; [reflexivity|]. simpl.
  destruct (q x) eqn:Eq; simpl; destruct (p x) eqn:Ep; try rewrite IH; try reflexivity.
  apply Hpq in Ep. congruence.
Qed.

Lemma filter_filter_both {A : Type} (p q r : A -> bool) (l : list A) :
  (forall x, r x = p x && q x) ->
  List.filter p (List.filter q l) = List.filter r l.
Proof.
  intros H. induction l as [|x l IH]; [reflexivity|]. simpl.
  rewrite H. destruct (q x); simpl; [destruct (p x); simpl|];
    rewrite ?IH, ?andb_false_r; reflexivity.
Qed.

Lemma offer_one_tags (st : collector) (cs : list string) :
  tags (offer st (List.map Some cs))
  = tags st ++ List.filter (unseen st) (dedup_first (List.filter truthy cs)).
Proof.
  revert st. induction cs as [|c cs IH]; intros st; simpl.
  - symmetry; apply app_nil_r.
  - fold (offer (push st c) (List.map Some cs)). rewrite IH. unfold push.
    destruct (truthy c) eqn:Et; simpl; [|reflexivity].
    destruct (bool_decide (c ∈ seen st)) eqn:Es; simpl.
    + replace (unseen st c) with false by (unfold unseen; rewrite Es; reflexivity).
      f_equal. rewrite filter_filter_implied; [reflexivity|].
      intros x Hx. apply negb_true_iff, bool_decide_eq_false in Hx.
      apply bool_decide_eq_true in Es.
      apply negb_true_iff, String.eqb_neq. intros ->. contradiction.
    + replace (unseen st c) with true by (unfold unseen; rewrite Es; reflexivity).
      rewrite <- app_assoc. simpl. do 2 f_equal.
      symmetry. apply filter_filter_both. intros x.
      unfold unseen; simpl.
      destruct (String.eqb_spec x c) as [->|Hne]; simpl.
      * rewrite bool_decide_eq_true_2 by (apply elem_of_union_l, elem_of_singleton; reflexivity).
        symmetry; apply andb_false_r.
      * rewrite andb_true_r. f_equal. apply bool_decide_ext.
        rewrite elem_of_union, elem_of_singleton. tauto.
Qed.

Lemma offer_omap (st : collector) (cs : list (option string)) :
  offer st cs = offer st (List.map Some (omap id cs)).
Proof.
  revert st. induction cs as [|[c|] cs IH]; intros st; simpl; [reflexivity| |].
  - apply IH.
  - apply IH.
Qed.

Lemma filter_all {A : Type} (p : A -> bool) (l : list A) :
  (forall x, p x = true) -> List.filter p l = l.
Proof.
  intros H. induction l as [|x l IH]; [reflexivity|].
  simpl. rewrite H, IH. reflexivity.
Qed.

Lemma collected_tags (lang : Language L) (maximized : option (Language L)) :
  tags (offer collector_empty
          (List.flat_map (offered_by L) (sources L lang maximized)))
  = dedup_first (discovered L lang maximized).
Proof.
  rewrite offer_omap, offer_one_tags. simpl.
  apply filter_all. intros x. unfold unseen; simpl.
  rewrite bool_decide_eq_false_2 by set_solver. reflexivity.
Qed.

(** *** The selection loop is a filter *)

Lemma filter_related_eq (reference : string) (primary : option string)
    (candidates filtered : list string) :
  filter_related L reference primary candidates filtered
  = Ok (filtered ++ List.filter (keeps L reference primary) candidates).
Proof.
  revert filtered.
  induction candidates as [|c cs IH]; intros filtered; simpl.
  - rewrite app_nil_r. reflexivity.
  - unfold keeps at 1.
    destruct (truthy c); simpl; [|apply IH].
    destruct (bool_decide (primary = Some c)); simpl; [apply IH|].
    rewrite try_or_None_eq; simpl.
    destruct (us_excluded L (attempt (Language_get L c))); simpl; [apply IH|].
    rewrite _is_near_identical_eq; simpl.
    destruct (near L reference c); [|apply IH].
    rewrite IH, <- app_assoc. reflexivity.
Qed.

Lemma select_related_eq (lang : Language L) (base_tag : option string)
    (collected : list string) :
  select_related L lang base_tag collected
  = Ok (List.filter (selects L lang base_tag) collected).
Proof.
  unfold select_related, selects.
  rewrite _to_standard_tag_eq; simpl.
  destruct (truthy (reference_of L base_tag _ lang)); simpl; [|reflexivity].
  apply filter_related_eq.
Qed.

Lemma _collect_related_codes_eq (lang : Language L)
    (maximized : option (Language L)) (base_tag : option string) :
  _collect_related_codes L lang maximized base_tag
  = Ok (List.filter (selects L lang base_tag)
          (dedup_first (discovered L lang maximized))).
Proof.
  unfold _collect_related_codes.
  erewrite bind_run; [|apply collect_tags_eq].
  erewrite bind_run; [|unfold St.gets; reflexivity].
  unfold St.lift; cbn [snd].
  rewrite collected_tags. apply select_related_eq.
Qed.

(** *** Lists without repetition *)

Lemma dedup_first_In (x : string) (l : list string) :
  In x (dedup_first l) <-> In x l.
Proof.
  induction l as [|y l IH]; simpl; [tauto|].
  rewrite filter_In, IH, negb_true_iff, String.eqb_neq.
  destruct (String.eqb_spec x y) as [->|Hne]; [tauto|].
  split; [intros [?|[? _]]; auto|intros [?|?]; auto].
Qed.

Lemma dedup_first_NoDup (l : list string) : NoDup (dedup_first l).
Proof.
  induction l as [|y l IH]; simpl; constructor.
  - rewrite list_elem_of_In, filter_In, negb_true_iff, String.eqb_neq.
    intros [_ H]. apply H. reflexivity.
  - apply NoDup_ListNoDup, List.NoDup_filter, NoDup_ListNoDup, IH.
Qed.

Lemma filter_sublist {A : Type} (p : A -> bool) (l : list A) :
  sublist (List.filter p l) l.
Proof.
  induction l as [|x l IH]; simpl; [constructor|].
  destruct (p x); constructor; exact IH.
Qed.

Lemma discovered_truthy (lang : Language L) (maximized : option (Language L))
    (c : string) :
  In c (dedup_first (discovered L lang maximized)) -> truthy c = true.
Proof.
  rewrite dedup_first_In. unfold discovered. rewrite filter_In. tauto.
Qed.

Lemma selects_not_primary (lang : Language L) (base_tag : option string)
    (c : string) :
  selects L lang base_tag c = true -> standard_tag L (VLang lang) <> Some c.
Proof.
  unfold selects, keeps.
  destruct (truthy (reference_of _ _ _ _)); intros H;
    repeat (apply andb_true_iff in H; destruct H as [H ?]);
    match goal with
    | Hn : negb (bool_decide _) = true |- _ =>
        apply negb_true_iff, bool_decide_eq_false in Hn; exact Hn
    end.
Qed.

(** *** The report *)

Lemma print_eq (line : string) (out : list string) :
  print line out = (out ++ [line], Ok tt).
Proof. reflexivity. Qed.

Lemma print_related_eq (related : list string) (out : list string) :
  St.for_each related (fun code =>
    St.bind
      (St.lift (Res.try_except
                  (l <- Language_get L code ;; display_name L l)%res
                  (fun _ => Ok "Unknown")))
      (fun name => print ("  - " +:+ code +:+ ": " +:+ name))) out
  = (out ++ List.map (fun code => "  - " +:+ code +:+ ": " +:+ display_of L code)
              related, Ok tt).
Proof.
  revert out. induction related as [|code related IH]; intros out; simpl.
  - rewrite app_nil_r. reflexivity.
  - rewrite bind_run
      with (s' := out ++ ["  - " +:+ code +:+ ": " +:+ display_of L code]) (a := tt).
    + rewrite IH, <- app_assoc. reflexivity.
    + unfold St.bind, St.lift, display_of.
      destruct (l <- Language_get L code ;; display_name L l)%res; reflexivity.
Qed.

Lemma report_eq (query : string) (lang : Language L) (out : list string) :
  report L query lang out
  = match describe L lang with
    | Ok description => (out ++ report_lines L query lang description, Ok 0)
    | Raise e => (out, Raise e)
    end.
Proof.
  unfold report, report_lines.
  erewrite bind_run; [|unfold St.lift; rewrite _to_standard_tag_eq; reflexivity].
  destruct (describe L lang) as [description|e]; [|reflexivity].
  erewrite bind_run; [|reflexivity].
  step_with print_eq. step_with print_eq.
  erewrite bind_run; [|unfold St.lift; rewrite try_or_None_eq; reflexivity].
  step_with print_eq.
  erewrite bind_run;
    [|unfold St.lift; rewrite _collect_related_codes_eq; reflexivity].
  fold (related_of L lang (attempt (maximize L lang))
          (Some (or_str (standard_tag L (VLang lang)) query))).
  destruct (related_of L lang _ _) as [|code related] eqn:Er.
  - erewrite bind_run; [|reflexivity].
    unfold St.ret. rewrite <- !app_assoc. reflexivity.
  - erewrite bind_run;
      [|step_with print_eq; apply print_related_eq].
    unfold St.ret. rewrite <- !app_assoc. reflexivity.
Qed.

(** *** The reference tag *)

Lemma reference_never_empty (lang : Language L) (base_tag primary : option string) :
  tags_never_empty L -> truthy (reference_of L base_tag primary lang) = true.
Proof.
  intros Htag. unfold reference_of, or_None, truthy_opt.
  destruct base_tag as [b|]; [destruct (truthy b) eqn:Eb; [exact Eb|]|];
    (destruct primary as [q|]; [destruct (truthy q) eqn:Eq; [exact Eq|]|]);
    apply Htag.
Qed.

End Facts.


(** ** The related-code collector *)

Section Collector.
Variable L : Langcodes.

(** C10: [_to_standard_tag] and [_is_near_identical] return a value on
    every input and never raise: [None] when [standardize_tag] raises,
    [False] when [tag_distance] raises in either direction. *)
Theorem helpers_total (val : value (Language L)) (base_tag candidate : string) :
  (exists r, _to_standard_tag L val = Ok r
             /\ forall e, standardize_tag L (VStr (raw_of L val)) = Raise e ->
                          r = None)
  /\ (exists b, _is_near_identical L base_tag candidate = Ok b
                /\ forall e, tag_distance L base_tag candidate = Raise e
                             \/ tag_distance L candidate base_tag = Raise e ->
                             b = false).
Proof.
  split.
  - exists (standard_tag L val). split; [apply _to_standard_tag_eq|].
    intros e He. unfold standard_tag. rewrite He. reflexivity.
  - exists (near L base_tag candidate). split; [apply _is_near_identical_eq|].
    intros e [He|He]; unfold near; rewrite He; [reflexivity|].
    destruct (tag_distance L base_tag candidate); reflexivity.
Qed.

(** C1: the list returned by [_collect_related_codes] never contains the
    primary tag, the standardized tag of the input language. *)
Theorem primary_tag_excluded (lang : Language L)
    (maximized : option (Language L)) (base_tag : option string) :
  exists related,
    _collect_related_codes L lang maximized base_tag = Ok related
    /\ forall primary, _to_standard_tag L (VLang lang) = Ok (Some primary) ->
                       ~ In primary related.
Proof.
  eexists. split; [apply _collect_related_codes_eq|].
  intros primary Hp Hin. rewrite _to_standard_tag_eq in Hp.
  apply filter_In in Hin as [_ Hsel].
  apply selects_not_primary in Hsel. congruence.
Qed.

(** C2: with a usable (non-empty) reference tag, every returned candidate
    is within distance 1 of the reference in both directions. *)
Theorem distance_both_directions (lang : Language L)
    (maximized : option (Language L)) (base_tag primary : option string) :
  _to_standard_tag L (VLang lang) = Ok primary ->
  truthy (reference_of L base_tag primary lang) = true ->
  exists related,
    _collect_related_codes L lang maximized base_tag = Ok related
    /\ forall candidate, In candidate related ->
         exists forward backward,
           tag_distance L (reference_of L base_tag primary lang) candidate
           = Ok forward
           /\ tag_distance L candidate (reference_of L base_tag primary lang)
              = Ok backward
           /\ forward <= 1 /\ backward <= 1.
Proof.
  intros Hp Href. rewrite _to_standard_tag_eq in Hp. injection Hp as <-.
  eexists. split; [apply _collect_related_codes_eq|].
  intros c Hin. apply filter_In in Hin as [_ Hsel].
  unfold selects in Hsel. cbv zeta in Hsel. rewrite Href in Hsel.
  unfold keeps in Hsel. apply andb_true_iff in Hsel as [_ Hnear].
  unfold near in Hnear.
  destruct (tag_distance L _ c) as [forward|]; [|discriminate].
  destruct (tag_distance L c _) as [backward|]; [|discriminate].
  apply andb_true_iff in Hnear as [Hf Hb].
  exists forward, backward. unfold MAX_NEAR_DISTANCE in *. repeat split; lia.
Qed.


(** C7: the returned list has no repeated tag, and its tags stand in the
    order in which [add] first met them: it is a subsequence of [tags],
    which is the keep-first deduplication of the candidates offered. *)
Theorem related_deduplicated (lang : Language L)
    (maximized : option (Language L)) (base_tag : option string) :
  exists st related,
    collect_tags L lang maximized collector_empty = (st, Ok tt)
    /\ tags st = dedup_first (discovered L lang maximized)
    /\ _collect_related_codes L lang maximized base_tag = Ok related
    /\ NoDup related
    /\ sublist related (tags st).
Proof.
  eexists. eexists. split; [apply collect_tags_eq|].
  split; [apply collected_tags|].
  split; [apply _collect_related_codes_eq|].
  rewrite collected_tags. split.
  - apply NoDup_ListNoDup, List.NoDup_filter, NoDup_ListNoDup, dedup_first_NoDup.
  - apply filter_sublist.
Qed.

(** C8: a collected candidate, other than the primary tag, that
    [Language.get] fails to parse is not subject to the US-territory
    exclusion: it is returned whenever it is near-identical to the
    reference. *)
Theorem unparsed_candidate_kept (lang : Language L)
    (maximized : option (Language L)) (base_tag primary : option string)
    (candidate : string) (e : exc) :
  _to_standard_tag L (VLang lang) = Ok primary ->
  truthy (reference_of L base_tag primary lang) = true ->
  In candidate (tags (fst (collect_tags L lang maximized collector_empty))) ->
  primary <> Some candidate ->
  Language_get L candidate = Raise e ->
  _is_near_identical L (reference_of L base_tag primary lang) candidate = Ok true ->
  exists related,
    _collect_related_codes L lang maximized base_tag = Ok related
    /\ In candidate related.
Proof.
  intros Hp Href Hin Hne Hget Hnear.
  rewrite _to_standard_tag_eq in Hp. injection Hp as <-.
  rewrite _is_near_identical_eq in Hnear. injection Hnear as Hnear.
  rewrite collect_tags_eq in Hin. cbn [fst] in Hin. rewrite collected_tags in Hin.
  eexists. split; [apply _collect_related_codes_eq|].
  apply filter_In. split; [exact Hin|].
  unfold selects. cbv zeta. rewrite Href. unfold keeps.
  rewrite (discovered_truthy _ _ _ _ Hin), Hget, Hnear. simpl.
  rewrite bool_decide_eq_false_2 by exact Hne. reflexivity.
Qed.

(** C9: when the reference tag is empty, neither the US-territory test
    nor the distance test is applied: the function returns the collected
    tags except the primary one, which is all of them. *)
Theorem empty_reference_unfiltered (lang : Language L)
    (maximized : option (Language L)) (base_tag primary : option string) :
  _to_standard_tag L (VLang lang) = Ok primary ->
  truthy (reference_of L base_tag primary lang) = false ->
  let collected := tags (fst (collect_tags L lang maximized collector_empty)) in
  _collect_related_codes L lang maximized base_tag
  = Ok (List.filter (fun tag => negb (bool_decide (primary = Some tag))) collected)
  /\ _collect_related_codes L lang maximized base_tag = Ok collected.
Proof.
  intros Hp Href collected. subst collected.
  rewrite _to_standard_tag_eq in Hp. injection Hp as <-.
  rewrite collect_tags_eq. cbn [fst]. rewrite collected_tags.
  rewrite _collect_related_codes_eq.
  assert (Hsel : forall c, In c (dedup_first (discovered L lang maximized)) ->
                   selects L lang base_tag c = true
                   /\ negb (bool_decide (standard_tag L (VLang lang) = Some c)) = true).
  { intros c Hc. apply discovered_truthy in Hc.
    assert (Hn : standard_tag L (VLang lang) <> Some c).
    { intros Heq. unfold reference_of in Href. rewrite Heq in Href.
      unfold or_None, truthy_opt in Href.
      destruct base_tag as [b|]; [destruct (truthy b) eqn:Eb|];
        rewrite ?Hc in Href; congruence. }
    unfold selects. cbv zeta. rewrite Href, Hc.
    rewrite bool_decide_eq_false_2 by exact Hn. split; reflexivity. }
  split; f_equal.
  - apply List.filter_ext_in. intros c Hc. destruct (Hsel c Hc) as [-> ->].
    reflexivity.
  - rewrite <- (filter_all (fun _ => true) (dedup_first _)) at 2 by reflexivity.
    apply List.filter_ext_in. intros c Hc. apply (Hsel c Hc).
Qed.

(** C5: every failure of a library call inside [_collect_related_codes]
    is caught, the candidate it concerns is skipped, and the function
    never raises.  A failed standardization leaves only the raw string to
    offer; a failed [minimize] or [maximize] and a missing alpha-3 code
    add nothing; a candidate for which [tag_distance] fails in either
    direction, or which [Language.get] fails to parse, is not returned.
    For the last, [tag_distance] parses its tags with [Language.get] and
    fails with it. *)
Theorem failures_are_caught (lang : Language L)
    (maximized : option (Language L)) (base_tag : option string) :
  tags_never_empty L ->
  distance_parses L ->
  exists related,
    _collect_related_codes L lang maximized base_tag = Ok related
    /\ (forall val st e,
          standardize_tag L (VStr (raw_of L val)) = Raise e ->
          add L [val] st = (push st (raw_of L val), Ok tt))
    /\ (forall st e,
          minimize L lang = Raise e -> add_minimized L lang st = (st, Ok tt))
    /\ (forall st e,
          maximize L lang = Raise e -> add_maximized L lang None st = (st, Ok tt))
    /\ (forall st base_language table,
          dict_get table base_language = None ->
          add_alpha3 L base_language table st = (st, Ok tt))
    /\ (forall primary candidate e,
          _to_standard_tag L (VLang lang) = Ok primary ->
          let reference := reference_of L base_tag primary lang in
          tag_distance L reference candidate = Raise e
          \/ tag_distance L candidate reference = Raise e ->
          ~ In candidate related)
    /\ (forall candidate e,
          Language_get L candidate = Raise e -> ~ In candidate related).
Proof.
  intros Htag Hdist.
  pose proof (reference_never_empty L lang base_tag
                (standard_tag L (VLang lang)) Htag) as Href.
  assert (Hnear : forall c,
            In c (List.filter (selects L lang base_tag)
                    (dedup_first (discovered L lang maximized))) ->
            near L (reference_of L base_tag (standard_tag L (VLang lang)) lang) c
            = true).
  { intros c Hin. apply filter_In in Hin as [_ Hsel].
    unfold selects in Hsel. cbv zeta in Hsel. rewrite Href in Hsel.
    unfold keeps in Hsel. apply andb_true_iff in Hsel as [_ Hsel]. exact Hsel. }
  eexists. split; [apply _collect_related_codes_eq|].
  split.
  { intros val st e He. rewrite add_eq. simpl.
    unfold standard_tag. rewrite He. reflexivity. }
  split.
  { intros st e He. rewrite add_minimized_eq, He. reflexivity. }
  split.
  { intros st e He. rewrite add_maximized_eq. simpl. rewrite He. reflexivity. }
  split.
  { intros st b table He. rewrite add_alpha3_eq, He. reflexivity. }
  split.
  - intros primary c e Hp reference Hd Hin. subst reference.
    rewrite _to_standard_tag_eq in Hp. injection Hp as <-.
    apply Hnear in Hin. unfold near in Hin.
    destruct Hd as [Hd|Hd]; rewrite Hd in Hin; [discriminate|].
    destruct (tag_distance L _ c); discriminate.
  - intros c e Hget Hin. apply Hnear in Hin. unfold near in Hin.
    destruct (Hdist (reference_of L base_tag (standard_tag L (VLang lang)) lang)
                c e (or_intror Hget)) as [e' He'].
    rewrite He' in Hin. discriminate.
Qed.

End Collector.

(** ** The command-line entry point *)

Section Main.
Variable L : Langcodes.

Lemma main_try_status (query : string) (simple : bool) (out out' : list string)
    (status : Z) :
  main_try L query simple out = (out', Ok status) -> status = 0.
Proof.
  unfold main_try, St.bind, St.lift, St.ret, print, St.modify.
  destruct (tag_is_valid L query) as [[|]|]; [| |discriminate].
  - destruct (Language_get L query) as [lang|]; [|discriminate].
    destruct simple.
    + destruct (display_name L lang); [|discriminate]. congruence.
    + rewrite report_eq. destruct (describe L lang); [|discriminate]. congruence.
  - destruct (find L query) as [lang|]; [|discriminate].
    destruct simple.
    + destruct (standardize_tag L (VLang lang)); [|discriminate].
      destruct (describe L lang); [|discriminate]. congruence.
    + rewrite report_eq. destruct (describe L lang); [|discriminate]. congruence.
Qed.

(** C4, amended: for a non-empty query that [tag_is_valid] accepts and
    [Language.get] parses, [main] without [-s] prints first the line
    "Tag: " with the standardized tag of the parsed query (the query
    itself when standardization fails or gives the empty string), then
    the description, and returns 0; with [-s] it prints only the display
    name. *)
Theorem valid_tag_reported (argv words : list string) (simple : bool)
    (lang : Language L) :
  parse_args L argv = Namespace words simple ->
  let query := strip (join " " words) in
  truthy query = true ->
  tag_is_valid L query = Ok true ->
  Language_get L query = Ok lang ->
  if simple
  then forall name, display_name L lang = Ok name ->
         main L argv
         = {| stdout := [name]; stderr := []; outcome := Returned 0 |}
  else forall description, describe L lang = Ok description ->
         exists tag rest,
           _to_standard_tag L (VLang lang) = Ok tag
           /\ main L argv
              = {| stdout := ("Tag: " +:+ or_str tag query)
                             :: ("Name: " +:+ description) :: rest;
                   stderr := [];
                   outcome := Returned 0 |}.
Proof.
  intros Hparse query Hq Hvalid Hget.
  unfold main. rewrite Hparse. fold query. rewrite Hq. cbn [negb].
  unfold main_try, St.bind, St.lift. rewrite Hvalid, Hget.
  destruct simple.
  - intros name Hname. rewrite Hname. reflexivity.
  - intros description Hd. rewrite report_eq, Hd.
    exists (standard_tag L (VLang lang)). eexists.
    split; [apply _to_standard_tag_eq|]. reflexivity.
Qed.

(** C6, amended: when the arguments parse to a non-empty query, [main]
    returns 0 if the body of its [try] completes and 1 if it raises an
    exception, whose message it writes to standard error after
    "langcodes: ".  When [argparse] exits, or the query is empty, [main]
    does not return: [SystemExit] carries the parser's status, which is 2
    for the empty query. *)
Theorem exit_status (argv : list string) :
  match parse_args L argv with
  | ParserExit status _ _ => outcome (main L argv) = SystemExit status
  | Namespace words simple =>
      let query := strip (join " " words) in
      if truthy query
      then
        match main_try L query simple [] with
        | (out, Ok status) =>
            status = 0
            /\ main L argv
               = {| stdout := out; stderr := []; outcome := Returned 0 |}
        | (out, Raise e) =>
            main L argv
            = {| stdout := out;
                 stderr := ["langcodes: " +:+ message e];
                 outcome := Returned 1 |}
        end
      else outcome (main L argv) = SystemExit 2
  end.
Proof.
  unfold main. destruct (parse_args L argv) as [words simple|status out err];
    [|reflexivity].
  cbv zeta. destruct (truthy (strip (join " " words))); [|reflexivity].
  cbn [negb].
  destruct (main_try L _ simple []) as [out [status|e]] eqn:Et; [|reflexivity].
  apply main_try_status in Et. subst status. split; reflexivity.
Qed.

End Main.

(** ** The script on the small environment *)

Example related_of_en :
  _collect_related_codes Toy.standard Toy.en None (Some "en")
  = Ok ["en-US"; "en-Latn-US"; "en-Latn"].
Proof. vm_compute. reflexivity. Qed.

Example related_of_haw :
  _collect_related_codes Toy.standard Toy.haw None (Some "haw") = Ok ["haw-Latn"].
Proof. vm_compute. reflexivity. Qed.

Example main_french :
  main Toy.standard ["French"]
  = {| stdout := ["Tag: fr"; "Name: French"; "Likely script: Latn";
                  "Identical or near-identical codes:";
                  "  - fr-FR: French"; "  - fr-Latn-FR: French";
                  "  - fr-Latn: French"];
       stderr := [];
       outcome := Returned 0 |}.
Proof. vm_compute. reflexivity. Qed.

Example main_unknown_name :
  main Toy.standard ["Klingon"]
  = {| stdout := [];
       stderr := ["langcodes: Can't find any language named 'Klingon'"];
       outcome := Returned 1 |}.
Proof. vm_compute. reflexivity. Qed.

(** C2 at English: the three related tags of "en" are within distance 1. *)
Lemma distance_both_directions_witness :
  _to_standard_tag Toy.standard (VLang Toy.en) = Ok (Some "en")
  /\ truthy (reference_of Toy.standard (Some "en") (Some "en") Toy.en) = true
  /\ exists related,
       _collect_related_codes Toy.standard Toy.en None (Some "en") = Ok related
       /\ forall candidate, In candidate related ->
            exists forward backward,
              tag_distance Toy.standard "en" candidate = Ok forward
              /\ tag_distance Toy.standard candidate "en" = Ok backward
              /\ forward <= 1 /\ backward <= 1.
Proof.
  split; [reflexivity|]. split; [reflexivity|].
  exact (distance_both_directions Toy.standard Toy.en None (Some "en") (Some "en")
           eq_refl eq_refl).
Defined.

Lemma toy_tags_never_empty : tags_never_empty Toy.standard.
Proof.
  intros [la sc te]. simpl. unfold Toy.tag_text, join. simpl.
  destruct la as [|a la]; simpl.
  - destruct (truthy sc), (truthy te); reflexivity.
  - destruct (truthy sc), (truthy te); reflexivity.
Qed.

Lemma toy_distance_parses : distance_parses Toy.standard.
Proof.
  intros desired supported e H. simpl in *. unfold Toy.get, Toy.distance in *.
  simpl in H.
  destruct H as [H|H]; rewrite H; simpl; [eauto|].
  destruct (Toy.lookup "und" desired); simpl; eauto.
Qed.


(** C5 at English: the alpha-3 code eng is collected, [Language.get]
    does not parse it, and it is not returned. *)
Lemma failures_are_caught_witness :
  tags_never_empty Toy.standard
  /\ distance_parses Toy.standard
  /\ In "eng" (tags (fst (collect_tags Toy.standard Toy.en None collector_empty)))
  /\ Language_get Toy.standard "eng"
     = Raise (Exception "Expected a language code, got 'eng'")
  /\ exists related,
       _collect_related_codes Toy.standard Toy.en None (Some "en") = Ok related
       /\ (forall candidate e,
             tag_distance Toy.standard "en" candidate = Raise e
             \/ tag_distance Toy.standard candidate "en" = Raise e ->
             ~ In candidate related)
       /\ (forall candidate e,
             Language_get Toy.standard candidate = Raise e ->
             ~ In candidate related).
Proof.
  split; [exact toy_tags_never_empty|]. split; [exact toy_distance_parses|].
  split; [vm_compute; do 4 right; left; reflexivity|]. split; [reflexivity|].
  destruct (failures_are_caught Toy.standard Toy.en None (Some "en")
              toy_tags_never_empty toy_distance_parses)
    as (related & Hrel & _ & _ & _ & _ & Hdist & Hget).
  exists related. split; [exact Hrel|]. split; [|exact Hget].
  intros candidate e. exact (Hdist (Some "en") candidate e eq_refl).
Defined.

Example main_no_break_space :
  outcome (main Toy.standard [no_break_space]) = SystemExit 2.
Proof. vm_compute. reflexivity. Qed.

(** C4 at the valid tag en-Latn-US: the first line is its standardized
    form, en-US. *)
Lemma valid_tag_reported_witness :
  parse_args Toy.standard ["en-Latn-US"] = Namespace ["en-Latn-US"] false
  /\ tag_is_valid Toy.standard "en-Latn-US" = Ok true
  /\ _to_standard_tag Toy.standard
       (VLang {| Toy.l_language := "en"; Toy.l_script := "Latn";
                 Toy.l_territory := "US" |}) = Ok (Some "en-US")
  /\ exists tag rest,
       _to_standard_tag Toy.standard
         (VLang {| Toy.l_language := "en"; Toy.l_script := "Latn";
                   Toy.l_territory := "US" |}) = Ok tag
       /\ main Toy.standard ["en-Latn-US"]
          = {| stdout := ("Tag: " +:+ or_str tag "en-Latn-US")
                         :: "Name: English" :: rest;
               stderr := [];
               outcome := Returned 0 |}.
Proof.
  split; [reflexivity|]. split; [reflexivity|]. split; [reflexivity|].
  exact (valid_tag_reported Toy.standard ["en-Latn-US"] ["en-Latn-US"] false
           {| Toy.l_language := "en"; Toy.l_script := "Latn";
              Toy.l_territory := "US" |}
           eq_refl eq_refl eq_refl eq_refl "English" eq_refl).
Defined.

(** C4 as stated fails with [-s]: the valid tag en is answered by its
    display name alone, and no "Tag:" line is printed. *)
Lemma valid_tag_simple_counterexample :
  tag_is_valid Toy.standard "en" = Ok true
  /\ parse_args Toy.standard ["-s"; "en"] = Namespace ["en"] true
  /\ main Toy.standard ["-s"; "en"]
     = {| stdout := ["English"]; stderr := []; outcome := Returned 0 |}.
Proof. repeat split; vm_compute; reflexivity. Qed.

(** C6 as stated fails for a blank query: [parser.error] ends [main] with
    [SystemExit(2)]. *)
Lemma blank_query_counterexample :
  parse_args Toy.standard [" "] = Namespace [" "] false
  /\ main Toy.standard [" "]
     = {| stdout := [];
          stderr := ["usage: inspect [-h] [-s] query [query ...]";
                     "inspect: error: Expected a non-empty query"];
          outcome := SystemExit 2 |}.
Proof. split; vm_compute; reflexivity. Qed.

(** C8 at Hawaiian under the strict parser: haw-Latn-US is not parsed, is
    near-identical to haw, and is returned although its text names the
    territory US. *)
Lemma unparsed_candidate_kept_witness :
  _to_standard_tag Toy.strict (VLang Toy.haw) = Ok (Some "haw")
  /\ Language_get Toy.strict "haw-Latn-US"
     = Raise (Exception "This tag is not well-formed: 'haw-Latn-US'")
  /\ _is_near_identical Toy.strict "haw" "haw-Latn-US" = Ok true
  /\ exists related,
       _collect_related_codes Toy.strict Toy.haw None (Some "haw") = Ok related
       /\ In "haw-Latn-US" related.
Proof.
  split; [reflexivity|]. split; [reflexivity|]. split; [reflexivity|].
  refine (unparsed_candidate_kept Toy.strict Toy.haw None (Some "haw") (Some "haw")
            "haw-Latn-US" (Exception "This tag is not well-formed: 'haw-Latn-US'")
            eq_refl eq_refl _ _ eq_refl eq_refl).
  - vm_compute. right. right. left. reflexivity.
  - discriminate.
Defined.

(** C9 at a language with the empty tag: the four collected tags are
    returned as they are. *)
Lemma empty_reference_unfiltered_witness :
  _to_standard_tag Toy.blank (VLang Toy.empty) = Ok (Some "")
  /\ truthy (reference_of Toy.blank None (Some "") Toy.empty) = false
  /\ tags (fst (collect_tags Toy.blank Toy.empty (Some Toy.haw_Latn_US)
                  collector_empty))
     = ["haw-US"; "haw-Latn-US"; "haw"; "haw-Latn"]
  /\ _collect_related_codes Toy.blank Toy.empty (Some Toy.haw_Latn_US) None
     = Ok (tags (fst (collect_tags Toy.blank Toy.empty (Some Toy.haw_Latn_US)
                        collector_empty))).
Proof.
  split; [reflexivity|]. split; [reflexivity|]. split; [vm_compute; reflexivity|].
  exact (proj2 (empty_reference_unfiltered Toy.blank Toy.empty
                  (Some Toy.haw_Latn_US) None (Some "") eq_refl eq_refl)).
Defined.

(** ** Further properties of the collector *)

Section CollectorMore.
Variable L : Langcodes.

Lemma push_seen_mono (st : collector) (c x : string) :
  x ∈ seen st -> x ∈ seen (push st c).
Proof.
  intros Hx. unfold push. destruct (truthy c && _); [|exact Hx].
  simpl. apply elem_of_union_r, Hx.
Qed.

Lemma push_seen_self (st : collector) (c : string) :
  truthy c = true -> c ∈ seen (push st c).
Proof.
  intros Hc. unfold push. rewrite Hc. simpl.
  destruct (bool_decide (c ∈ seen st)) eqn:Es; simpl.
  - apply bool_decide_eq_true in Es. exact Es.
  - apply elem_of_union_l, elem_of_singleton. reflexivity.
Qed.

Lemma offer_seen_mono (st : collector) (cs : list (option string)) (x : string) :
  x ∈ seen st -> x ∈ seen (offer st cs).
Proof.
  revert st. induction cs as [|[c|] cs IH]; intros st Hx; simpl; auto.
  apply IH, push_seen_mono, Hx.
Qed.

Lemma offer_seen_offered (st : collector) (cs : list (option string)) (c : string) :
  In (Some c) cs -> truthy c = true -> c ∈ seen (offer st cs).
Proof.
  revert st. induction cs as [|[d|] cs IH]; intros st Hin Hc; simpl in *.
  - contradiction.
  - destruct Hin as [[= ->]|Hin]; [|apply IH; assumption].
    apply offer_seen_mono, push_seen_self, Hc.
  - destruct Hin as [Hin|Hin]; [discriminate|apply IH; assumption].
Qed.

Lemma offer_nothing_new (st : collector) (cs : list (option string)) :
  (forall c, In (Some c) cs -> truthy c = true -> c ∈ seen st) ->
  offer st cs = st.
Proof.
  induction cs as [|[c|] cs IH]; intros Hall; simpl.
  - reflexivity.
  - assert (Hp : push st c = st).
    { unfold push. destruct (truthy c) eqn:Ec; [|reflexivity].
      rewrite bool_decide_eq_true_2 by (apply Hall; [left; reflexivity|exact Ec]).
      reflexivity. }
    rewrite Hp. apply IH. intros d Hd. apply Hall. right; exact Hd.
  - apply IH. intros d Hd. apply Hall. right; exact Hd.
Qed.

(** X1: [add] is idempotent: handing the same elements to [add] a second
    time changes neither [tags] nor [seen].  The second pass over
    [LANGUAGE_REPLACEMENTS] (lines 148-152), which builds the same list as
    the first (lines 142-146), therefore never adds a tag. *)
Theorem add_idempotent (values : list (value (Language L))) (st : collector) :
  exists st',
    add L values st = (st', Ok tt)
    /\ add L values st' = (st', Ok tt).
Proof.
  eexists. split; [apply add_eq|].
  rewrite add_eq. f_equal. apply offer_nothing_new.
  intros c Hin Hc. apply offer_seen_offered; assumption.
Qed.

Lemma push_ok (st : collector) (c : string) :
  collector_ok st -> collector_ok (push st c) /\ tags st `prefix_of` tags (push st c).
Proof.
  intros (Hseen & Hnd & Hne). unfold push.
  destruct (truthy c) eqn:Ec; simpl;
    [destruct (bool_decide (c ∈ seen st)) eqn:Es; simpl|].
  - split; [repeat split; auto; apply Hseen|reflexivity].
  - apply bool_decide_eq_false in Es. split; [|exists [c]; reflexivity].
    split; [|split].
    + intros x. simpl.
      rewrite elem_of_union, elem_of_singleton, in_app_iff, (Hseen x).
      simpl. intuition.
    + simpl. apply NoDup_app. split; [exact Hnd|]. split; [|apply NoDup_singleton].
      intros x Hx Hxc. apply list_elem_of_singleton in Hxc. subst x.
      apply Es, Hseen, list_elem_of_In, Hx.
    + simpl. intros x Hx. apply in_app_iff in Hx as [Hx|[<-|[]]]; auto.
  - split; [repeat split; auto; apply Hseen|reflexivity].
Qed.

Lemma offer_ok (st : collector) (cs : list (option string)) :
  collector_ok st -> collector_ok (offer st cs) /\ tags st `prefix_of` tags (offer st cs).
Proof.
  revert st. induction cs as [|[c|] cs IH]; intros st Hok; simpl.
  - split; [exact Hok|reflexivity].
  - destruct (push_ok st c Hok) as [Hok' Hpre].
    destruct (IH _ Hok') as [Hok'' Hpre'].
    split; [exact Hok''|]. etransitivity; eassumption.
  - apply IH, Hok.
Qed.

(** X2: [add] keeps the collector in order and only appends: from a
    state where [seen] is the set of [tags], without repetition and
    without the empty string, it never raises, leads to such a state
    again, and the old [tags] are a prefix of the new. *)
Theorem add_keeps_order (values : list (value (Language L))) (st : collector) :
  collector_ok st ->
  exists st',
    add L values st = (st', Ok tt)
    /\ collector_ok st'
    /\ tags st `prefix_of` tags st'.
Proof.
  intros Hok. eexists. split; [apply add_eq|]. apply offer_ok, Hok.
Qed.

(** X3: the returned tags are collected tags and none is the empty
    string. *)
Theorem related_nonempty (lang : Language L) (maximized : option (Language L))
    (base_tag : option string) :
  exists related,
    _collect_related_codes L lang maximized base_tag = Ok related
    /\ forall candidate, In candidate related ->
         truthy candidate = true
         /\ In candidate (tags (fst (collect_tags L lang maximized collector_empty))).
Proof.
  eexists. split; [apply _collect_related_codes_eq|].
  intros c Hin. apply filter_In in Hin as [Hin _].
  rewrite collect_tags_eq. cbn [fst]. rewrite collected_tags.
  split; [eapply discovered_truthy; exact Hin|exact Hin].
Qed.

(** X4: near-identity is symmetric in its two tags: both directions of
    [tag_distance] are asked whichever tag comes first. *)
Theorem near_identical_symmetric (a b : string) :
  _is_near_identical L a b = _is_near_identical L b a.
Proof.
  rewrite !_is_near_identical_eq. f_equal. unfold near.
  destruct (tag_distance L a b), (tag_distance L b a); try reflexivity.
  apply andb_comm.
Qed.

(** X5: handing [lang.maximize()] to [_collect_related_codes], as [main]
    does, gives the same list as leaving [maximized] out. *)
Theorem maximized_default (lang m : Language L) (base_tag : option string) :
  maximize L lang = Ok m ->
  _collect_related_codes L lang None base_tag
  = _collect_related_codes L lang (Some m) base_tag.
Proof.
  intros Hm. rewrite !_collect_related_codes_eq.
  unfold discovered, sources, maximized_of. rewrite Hm. reflexivity.
Qed.

(** X6: with a usable reference tag the returned list is exactly the
    collected tags, in their order, that are not the primary tag, are not
    excluded for their US territory and are near-identical to the
    reference: no tag that passes the three tests is dropped. *)
Theorem related_exactly (lang : Language L) (maximized : option (Language L))
    (base_tag primary : option string) :
  _to_standard_tag L (VLang lang) = Ok primary ->
  truthy (reference_of L base_tag primary lang) = true ->
  exists related,
    _collect_related_codes L lang maximized base_tag = Ok related
    /\ forall candidate,
         In candidate related <->
         In candidate (tags (fst (collect_tags L lang maximized collector_empty)))
         /\ primary <> Some candidate
         /\ (exists parsed, try_or_None (Language_get L candidate) = Ok parsed
                            /\ us_excluded L parsed = false)
         /\ _is_near_identical L (reference_of L base_tag primary lang) candidate
            = Ok true.
Proof.
  intros Hp Href. rewrite _to_standard_tag_eq in Hp. injection Hp as <-.
  eexists. split; [apply _collect_related_codes_eq|].
  intros c. rewrite collect_tags_eq. cbn [fst]. rewrite collected_tags.
  rewrite filter_In, _is_near_identical_eq, try_or_None_eq.
  unfold selects. cbv zeta. rewrite Href. unfold keeps.
  rewrite !andb_true_iff, !negb_true_iff, bool_decide_eq_false.
  split.
  - intros (Hin & ((_ & Hne) & Hus) & Hnear). rewrite Hnear. eauto 10.
  - intros (Hin & Hne & (parsed & [= <-] & Hus) & [= Hnear]).
    pose proof (discovered_truthy _ _ _ _ Hin). auto.
Qed.

(** X7: in the call [main] makes (line 230) the base tag is the printed
    tag, which is never empty for a non-empty query; so the reference is
    that tag and both tests apply to every related code [main] prints. *)
Theorem main_reference_usable (query : string) (lang : Language L)
    (maximized : option (Language L)) (primary : option string) :
  truthy query = true ->
  _to_standard_tag L (VLang lang) = Ok primary ->
  let tag := or_str primary query in
  truthy tag = true
  /\ reference_of L (Some tag) primary lang = tag
  /\ exists related,
       _collect_related_codes L lang maximized (Some tag) = Ok related
       /\ forall candidate, In candidate related ->
            _is_near_identical L tag candidate = Ok true
            /\ forall parsed, Language_get L candidate = Ok parsed ->
                 us_excluded L (Some parsed) = false.
Proof.
  intros Hq Hp tag.
  assert (Ht : truthy tag = true).
  { subst tag. unfold or_str. destruct primary as [p|]; [|exact Hq].
    destruct (truthy p) eqn:Ep; [exact Ep|exact Hq]. }
  assert (Hr : reference_of L (Some tag) primary lang = tag).
  { unfold reference_of, or_None, truthy_opt. rewrite Ht. reflexivity. }
  split; [exact Ht|]. split; [exact Hr|].
  rewrite _to_standard_tag_eq in Hp. injection Hp as Hp.
  eexists. split; [apply _collect_related_codes_eq|].
  intros c Hin. apply filter_In in Hin as [_ Hsel].
  unfold selects in Hsel. cbv zeta in Hsel. rewrite Hp, Hr, Ht in Hsel.
  unfold keeps in Hsel.
  apply andb_true_iff in Hsel as [Hsel Hnear].
  apply andb_true_iff in Hsel as [_ Hus]. apply negb_true_iff in Hus.
  rewrite _is_near_identical_eq, Hnear. split; [reflexivity|].
  intros parsed Hget. rewrite Hget in Hus. exact Hus.
Qed.

(** X8: every component built from the maximized language is its
    language subtag, alone or followed by "-" and further subtags; there
    are none when the maximized language has no language subtag. *)
Theorem components_share_language (maximized : Language L) (component : string) :
  In component (components_of L maximized) ->
  exists base,
    or_None (language L maximized) = Some base
    /\ (component = base \/ exists rest, component = base +:+ "-" +:+ rest).
Proof.
  unfold components_of.
  destruct (or_None (language L maximized)) as [base|]; [|intros []].
  intros Hin. exists base. split; [reflexivity|].
  assert (Hw : forall o f c,
             In c (when_some o (fun s => base +:+ "-" +:+ f s)) ->
             exists rest, c = base +:+ "-" +:+ rest).
  { intros [s|] f c; simpl; [intros [<-|[]]; eauto|intros []]. }
  assert (Hb : forall (f : string -> string -> string) c,
             In c match both (or_None (script L maximized))
                          (or_None (territory L maximized)) with
                  | Some (s, t) => [base +:+ "-" +:+ f s t]
                  | None => []
                  end ->
             exists rest, c = base +:+ "-" +:+ rest).
  { intros f c. destruct (both _ _) as [[s t]|]; simpl; [intros [<-|[]]; eauto|intros []]. }
  simpl in Hin. destruct Hin as [<-|Hin]; [left; reflexivity|right].
  repeat (apply in_app_iff in Hin as [Hin|Hin]).
  - apply (Hw _ (fun s => s) _ Hin).
  - apply (Hw _ (fun t => t) _ Hin).
  - apply (Hb (fun s t => s +:+ "-" +:+ t) _ Hin).
  - apply in_flat_map in Hin as (v & _ & Hin). simpl in Hin.
    destruct Hin as [<-|Hin]; [eauto|].
    repeat (apply in_app_iff in Hin as [Hin|Hin]).
    + apply (Hw _ (fun s => s +:+ "-" +:+ v) _ Hin).
    + apply (Hw _ (fun t => t +:+ "-" +:+ v) _ Hin).
    + apply (Hb (fun s t => s +:+ "-" +:+ t +:+ "-" +:+ v) _ Hin).
Qed.

End CollectorMore.

(** ** Further properties of the entry point *)

Section MainMore.
Variable L : Langcodes.

Lemma main_try_full (query : string) (out : list string) :
  main_try L query false out
  = match resolve L query with
    | Ok lang => report L query lang out
    | Raise e => (out, Raise e)
    end.
Proof.
  unfold main_try, resolve, St.bind, St.lift.
  destruct (tag_is_valid L query) as [[|]|]; simpl; [| |reflexivity].
  - destruct (Language_get L query); reflexivity.
  - destruct (find L query); reflexivity.
Qed.


Lemma main_try_simple_line (query : string) (out out' : list string) (status : Z) :
  main_try L query true out = (out', Ok status) ->
  exists line, out' = out ++ [line].
Proof.
  unfold main_try, St.bind, St.lift, St.ret, print, St.modify.
  destruct (tag_is_valid L query) as [[|]|]; [| |discriminate].
  - destruct (Language_get L query) as [lang|]; [|discriminate].
    destruct (display_name L lang); [|discriminate].
    intros [= <- _]. eauto.
  - destruct (find L query) as [lang|]; [|discriminate].
    destruct (standardize_tag L (VLang lang)); [|discriminate].
    destruct (describe L lang); [|discriminate].
    intros [= <- _]. eauto.
Qed.

Lemma all_space_app_len (n : nat) (a b : string) :
  (String.length a <= n)%nat ->
  all_space a = true -> all_space (a +:+ b) = all_space b.
Proof.
  revert a. induction n as [|n IH]; intros a Hlen Ha.
  - destruct a; [reflexivity|simpl in Hlen; lia].
  - destruct a as [|c1 r1]; [reflexivity|].
    simpl in Ha |- *. simpl in Hlen.
    destruct (is_space c1); [apply IH; [lia|exact Ha]|].
    destruct r1 as [|c2 r2]; [discriminate|]. simpl in Hlen |- *.
    destruct (is_space2 c1 c2); [apply IH; [lia|exact Ha]|].
    destruct r2 as [|c3 r3]; [discriminate|]. simpl in Hlen |- *.
    apply andb_true_iff in Ha as [H3 Ha]. rewrite H3. simpl.
    apply IH; [lia|exact Ha].
Qed.

Lemma all_space_app (a b : string) :
  all_space a = true -> all_space (a +:+ b) = all_space b.
Proof. apply (all_space_app_len (String.length a)). lia. Qed.

Lemma all_space_join (words : list string) :
  forallb all_space words = true -> all_space (join " " words) = true.
Proof.
  unfold join. induction words as [|w words IH]; simpl; [reflexivity|].
  intros H. apply andb_true_iff in H as [Hw Hws].
  destruct words as [|w' words]; [exact Hw|].
  rewrite (all_space_app _ _ Hw).
  change (all_space (" " +:+ String.concat " " (w' :: words)))
    with (all_space (String.concat " " (w' :: words))).
  apply IH, Hws.
Qed.

Lemma strip_all_space (s : string) : all_space s = true -> strip s = "".
Proof.
  intros H. unfold strip. destruct s as [|c r]; [reflexivity|].
  unfold rstrip; fold rstrip. rewrite H. reflexivity.
Qed.

(** X9: a query made of white space only (or of empty words) is refused
    before any library call: [parser.error] prints the usage and ends
    [main] with [SystemExit(2)]; nothing reaches standard output. *)
Theorem blank_query_rejected (argv words : list string) (simple : bool) :
  parse_args L argv = Namespace words simple ->
  forallb all_space words = true ->
  main L argv
  = {| stdout := [];
       stderr := parser_usage L
                 ++ [parser_prog L +:+ ": error: Expected a non-empty query"];
       outcome := SystemExit 2 |}.
Proof.
  intros Hparse Hblank. unfold main. rewrite Hparse.
  rewrite (strip_all_space _ (all_space_join _ Hblank)). reflexivity.
Qed.


(** X12: with [-s] a successful run prints exactly one line. *)
Theorem simple_prints_one_line (argv words : list string) :
  parse_args L argv = Namespace words true ->
  outcome (main L argv) = Returned 0 ->
  exists line, stdout (main L argv) = [line].
Proof.
  intros Hparse. unfold main. rewrite Hparse.
  destruct (truthy (strip (join " " words))); [|discriminate].
  cbn [negb].
  destruct (main_try L _ true []) as [out [status|e]] eqn:Et; simpl;
    [|discriminate].
  intros _. apply main_try_simple_line in Et. exact Et.
Qed.

(** X13: without [-s], once the query is resolved and described, [main]
    returns 0 and prints the tag, the name and the likely script
    ("Unknown" when [maximize] fails or gives no script), then, when
    there are related codes, a heading and one line for each of them, in
    the order [_collect_related_codes] returns them. *)
Theorem full_report (argv words : list string) (lang : Language L)
    (description : string) :
  parse_args L argv = Namespace words false ->
  let query := strip (join " " words) in
  truthy query = true ->
  resolve L query = Ok lang ->
  describe L lang = Ok description ->
  exists primary maximized related,
    _to_standard_tag L (VLang lang) = Ok primary
    /\ try_or_None (maximize L lang) = Ok maximized
    /\ _collect_related_codes L lang maximized (Some (or_str primary query))
       = Ok related
    /\ main L argv
       = {| stdout :=
              ["Tag: " +:+ or_str primary query;
               "Name: " +:+ description;
               "Likely script: "
                 +:+ or_str match maximized with
                            | Some m => script L m
                            | None => None
                            end "Unknown"]
              ++ match related with
                 | [] => []
                 | _ :: _ =>
                     "Identical or near-identical codes:"
                     :: List.map
                          (fun code => "  - " +:+ code +:+ ": " +:+ display_of L code)
                          related
                 end;
            stderr := [];
            outcome := Returned 0 |}.
Proof.
  intros Hparse query Hq Hres Hd.
  exists (standard_tag L (VLang lang)), (attempt (maximize L lang)).
  eexists. split; [apply _to_standard_tag_eq|].
  split; [apply try_or_None_eq|].
  split; [apply _collect_related_codes_eq|].
  unfold main. rewrite Hparse. fold query. rewrite Hq. cbn [negb].
  rewrite main_try_full, Hres, report_eq, Hd.
  unfold report_lines, related_of. simpl.
  destruct (List.filter _ _); reflexivity.
Qed.

End MainMore.

(** ** The further properties on the small environment *)

Lemma collector_empty_ok : collector_ok collector_empty.
Proof.
  split; [|split]; simpl.
  - intros x. split; [intros H; apply not_elem_of_empty in H; exact H|intros []].
  - apply NoDup_nil_2.
  - intros x [].
Qed.

(** X2 from the empty collector, at English. *)
Lemma add_keeps_order_witness :
  collector_ok collector_empty
  /\ exists st',
       add Toy.standard [VLang Toy.en; VStr "en-Latn-US"] collector_empty
       = (st', Ok tt)
       /\ collector_ok st'
       /\ tags collector_empty `prefix_of` tags st'.
Proof.
  split; [exact collector_empty_ok|].
  exact (add_keeps_order Toy.standard [VLang Toy.en; VStr "en-Latn-US"]
           collector_empty collector_empty_ok).
Defined.

(** X5 at English, whose maximized form is en-Latn-US. *)
Lemma maximized_default_witness :
  maximize Toy.standard Toy.en
  = Ok {| Toy.l_language := "en"; Toy.l_script := "Latn"; Toy.l_territory := "US" |}
  /\ _collect_related_codes Toy.standard Toy.en None (Some "en")
     = _collect_related_codes Toy.standard Toy.en
         (Some {| Toy.l_language := "en"; Toy.l_script := "Latn";
                  Toy.l_territory := "US" |})
         (Some "en").
Proof.
  split; [reflexivity|].
  exact (maximized_default Toy.standard Toy.en
           {| Toy.l_language := "en"; Toy.l_script := "Latn"; Toy.l_territory := "US" |}
           (Some "en") eq_refl).
Defined.

(** X6 at Hawaiian: of the collected tags only haw-Latn passes. *)
Lemma related_exactly_witness :
  _to_standard_tag Toy.standard (VLang Toy.haw) = Ok (Some "haw")
  /\ truthy (reference_of Toy.standard (Some "haw") (Some "haw") Toy.haw) = true
  /\ exists related,
       _collect_related_codes Toy.standard Toy.haw None (Some "haw") = Ok related
       /\ forall candidate,
            In candidate related <->
            In candidate
              (tags (fst (collect_tags Toy.standard Toy.haw None collector_empty)))
            /\ Some "haw" <> Some candidate
            /\ (exists parsed,
                  try_or_None (Language_get Toy.standard candidate) = Ok parsed
                  /\ us_excluded Toy.standard parsed = false)
            /\ _is_near_identical Toy.standard "haw" candidate = Ok true.
Proof.
  split; [reflexivity|]. split; [reflexivity|].
  exact (related_exactly Toy.standard Toy.haw None (Some "haw") (Some "haw")
           eq_refl eq_refl).
Defined.

(** X7 at the query "haw". *)
Lemma main_reference_usable_witness :
  truthy "haw" = true
  /\ _to_standard_tag Toy.standard (VLang Toy.haw) = Ok (Some "haw")
  /\ truthy (or_str (Some "haw") "haw") = true
  /\ reference_of Toy.standard (Some (or_str (Some "haw") "haw")) (Some "haw") Toy.haw
     = or_str (Some "haw") "haw"
  /\ exists related,
       _collect_related_codes Toy.standard Toy.haw None
         (Some (or_str (Some "haw") "haw")) = Ok related
       /\ forall candidate, In candidate related ->
            _is_near_identical Toy.standard (or_str (Some "haw") "haw") candidate
            = Ok true
            /\ forall parsed, Language_get Toy.standard candidate = Ok parsed ->
                 us_excluded Toy.standard (Some parsed) = false.
Proof.
  split; [reflexivity|]. split; [reflexivity|].
  exact (main_reference_usable Toy.standard "haw" Toy.haw None (Some "haw")
           eq_refl eq_refl).
Defined.

(** X8 at haw-Latn-US. *)
Lemma components_share_language_witness :
  components_of Toy.standard Toy.haw_Latn_US
  = ["haw"; "haw-Latn"; "haw-US"; "haw-Latn-US"]
  /\ exists base,
       or_None (language Toy.standard Toy.haw_Latn_US) = Some base
       /\ ("haw-Latn-US" = base
           \/ exists rest, "haw-Latn-US" = base +:+ "-" +:+ rest).
Proof.
  split; [reflexivity|].
  refine (components_share_language Toy.standard Toy.haw_Latn_US "haw-Latn-US" _).
  vm_compute. right. right. right. left. reflexivity.
Defined.

(** X9 at a query of three blank words: spaces, a no-break space and
    an ideographic space, and the empty word. *)
Lemma blank_query_rejected_witness :
  parse_args Toy.standard ["  "; no_break_space +:+ ideographic_space; ""]
  = Namespace ["  "; no_break_space +:+ ideographic_space; ""] false
  /\ forallb all_space ["  "; no_break_space +:+ ideographic_space; ""] = true
  /\ main Toy.standard ["  "; no_break_space +:+ ideographic_space; ""]
     = {| stdout := [];
          stderr := parser_usage Toy.standard
                    ++ [parser_prog Toy.standard
                        +:+ ": error: Expected a non-empty query"];
          outcome := SystemExit 2 |}.
Proof.
  split; [reflexivity|]. split; [reflexivity|].
  exact (blank_query_rejected Toy.standard
           ["  "; no_break_space +:+ ideographic_space; ""]
           ["  "; no_break_space +:+ ideographic_space; ""] false
           eq_refl eq_refl).
Defined.


(** X12 at the name French asked with [-s]. *)
Lemma simple_prints_one_line_witness :
  parse_args Toy.standard ["-s"; "French"] = Namespace ["French"] true
  /\ outcome (main Toy.standard ["-s"; "French"]) = Returned 0
  /\ exists line, stdout (main Toy.standard ["-s"; "French"]) = [line].
Proof.
  split; [reflexivity|]. split; [reflexivity|].
  exact (simple_prints_one_line Toy.standard ["-s"; "French"] ["French"]
           eq_refl eq_refl).
Defined.

(** X13 at the name Hawaiian. *)
Lemma full_report_witness :
  parse_args Toy.standard ["Hawaiian"] = Namespace ["Hawaiian"] false
  /\ resolve Toy.standard "Hawaiian" = Ok Toy.haw
  /\ exists primary maximized related,
       _to_standard_tag Toy.standard (VLang Toy.haw) = Ok primary
       /\ try_or_None (maximize Toy.standard Toy.haw) = Ok maximized
       /\ _collect_related_codes Toy.standard Toy.haw maximized
            (Some (or_str primary "Hawaiian")) = Ok related
       /\ main Toy.standard ["Hawaiian"]
          = {| stdout :=
                 ["Tag: " +:+ or_str primary "Hawaiian";
                  "Name: Hawaiian";
                  "Likely script: "
                    +:+ or_str match maximized with
                               | Some m => script Toy.standard m
                               | None => None
                               end "Unknown"]
                 ++ match related with
                    | [] => []
                    | _ :: _ =>
                        "Identical or near-identical codes:"
                        :: List.map
                             (fun code =>
                                "  - " +:+ code +:+ ": "
                                +:+ display_of Toy.standard code)
                             related
                    end;
               stderr := [];
               outcome := Returned 0 |}.
Proof.
  split; [reflexivity|]. split; [reflexivity|].
  exact (full_report Toy.standard ["Hawaiian"] ["Hawaiian"] Toy.haw "Hawaiian"
           eq_refl eq_refl eq_refl eq_refl).
Defined.

Example main_hawaiian :
  main Toy.standard ["Hawaiian"]
  = {| stdout := ["Tag: haw"; "Name: Hawaiian"; "Likely script: Latn";
                  "Identical or near-identical codes:"; "  - haw-Latn: Hawaiian"];
       stderr := [];
       outcome := Returned 0 |}.
Proof. vm_compute. reflexivity. Qed.
